(** * minsev: a log processor that drops records below a minimum severity

    Shallow embedding of [processors/minsev/minsev.go] and proofs of the
    properties its specification states.

    The Go code is a decorator over three collaborators it knows only through
    interfaces: the wrapped [log.Processor], its optional [log.FilterProcessor]
    view, and a [Severitier] that reports the current minimum.  Collaborators
    are modelled as state transformers over a state [W] of their own, which
    may return or panic; the decorator runs in a monad whose state adds the
    cells holding [LogProcessor] structs and a trace of the interface calls
    the decorator makes.  Methods have pointer receivers, so every field
    access is a read of a cell, and a nil pointer or a nil interface in
    receiver position panics as it does in Go. *)

From Stdlib Require Import ZArith List String Bool Lia.
Import ListNotations.
Local Open Scope Z_scope.

Set Implicit Arguments.

(** ** Results of Go calls *)

(** The value carried by a panic.  A method call through a nil interface or a
    field read through a nil pointer raises the run-time error
    [NilDereference]. *)
Inductive PanicValue : Type :=
| NilDereference
| Raised (msg : string).

Inductive Outcome (A : Type) : Type :=
| Done (a : A)
| Panic (v : PanicValue).
Arguments Panic {A} v.

(** Code of a collaborator: it reads and writes the collaborators' state and
    either returns or panics. *)
Definition Impl (W A : Type) : Type := W -> Outcome A * W.

(** Go's [error]: [None] is the nil error. *)
Definition error : Type := option string.

(** [context.Context]; the processor only passes it on. *)
Inductive Context : Type :=
| Background
| WithValue (parent : Context) (key val : string).

(** ** The part of [go.opentelemetry.io/otel/sdk/log] the package uses *)
Module log.

(** [log.Severity] is a Go [int]; only its order is used. *)
Definition Severity : Type := Z.

(** [log.SeverityInfo], the informational level of the OpenTelemetry scale. *)
Definition SeverityInfo : Severity := 9.

(** [log.Record], reduced to the severity the processor reads and a body
    standing for the rest of the record. *)
Record Record_ : Type := mkRecord {
  severity : Severity;
  body : string
}.

(** The accessor [Severity() log.Severity] of a record. *)
Definition Record_Severity (r : Record_) : Severity := severity r.

(** [log.EnabledParameters] *)
Record EnabledParameters : Type := mkEnabledParameters {
  param_Severity : Severity;
  param_EventName : string
}.

(** [log.FilterProcessor] *)
Record FilterProcessor (W : Type) : Type := mkFilterProcessor {
  Enabled : Context -> EnabledParameters -> Impl W bool
}.

(** A non-nil [log.Processor] value: the three methods of the interface,
    and the [Enabled] method of the dynamic type behind it when that type
    has one (what a type assertion to [log.FilterProcessor] looks for).  An
    interface that holds a nil pointer of some type is such a value too: it
    does not compare equal to nil, and what its methods do with their
    receiver is the collaborator's business. *)
Record Processor (W : Type) : Type := mkProcessor {
  OnEmit : Context -> Record_ -> Impl W error;
  Shutdown : Context -> Impl W error;
  ForceFlush : Context -> Impl W error;
  dyn_Enabled : option (Context -> EnabledParameters -> Impl W bool)
}.

(** [v, ok := downstream.(log.FilterProcessor)]; a nil interface fails the
    assertion. *)
Definition assert_FilterProcessor {W : Type} (downstream : option (Processor W))
  : option (FilterProcessor W) :=
  match downstream with
  | Some d =>
      match dyn_Enabled d with
      | Some e => Some (mkFilterProcessor e)
      | None => None
      end
  | None => None
  end.

End log.

(** ** Package minsev *)

(** [Severitier]: [Severity() log.Severity]. *)
Record Severitier (W : Type) : Type := mkSeveritier {
  Severity : Impl W log.Severity
}.

(** [type LogProcessor struct { log.Processor; filter log.FilterProcessor;
    sev Severitier }].  Each field holds an interface value, [None] for nil. *)
Record LogProcessor (W : Type) : Type := mkLogProcessor {
  Processor : option (log.Processor W);
  filter : option (log.FilterProcessor W);
  sev : option (Severitier W)
}.

(** A pointer to a [LogProcessor]: the index of a cell.  A pointer that no allocation
    returned, Go's nil among them, has no cell. *)
Definition ptr : Type := nat.

(** The interface calls a [LogProcessor] makes on its collaborators. *)
Inductive Call : Type :=
| CallSeverity
| CallOnEmit (ctx : Context) (record : log.Record_)
| CallEnabled (ctx : Context) (param : log.EnabledParameters)
| CallShutdown (ctx : Context)
| CallForceFlush (ctx : Context).

(** Program state: the allocated [LogProcessor] structs, the calls made on
    collaborators so far (oldest first), and the collaborators' own state. *)
Record St (W : Type) : Type := mkSt {
  heap : list (LogProcessor W);
  trace : list Call;
  world : W
}.

Definition M (W A : Type) : Type := Impl (St W) A.

Section Gate.

Variable W : Type.

Definition ret {A : Type} (a : A) : M W A := fun s => (Done a, s).

Definition bind {A B : Type} (m : M W A) (k : A -> M W B) : M W B :=
  fun s =>
    match m s with
    | (Done a, s') => k a s'
    | (Panic v, s') => (Panic v, s')
    end.

Definition panic {A : Type} (v : PanicValue) : M W A := fun s => (Panic v, s).

(** Read of the struct behind [p]. *)
Definition load (p : ptr) : M W (LogProcessor W) :=
  fun s =>
    match nth_error (heap s) p with
    | Some g => (Done g, s)
    | None => (Panic NilDereference, s)
    end.

(** [&LogProcessor{...}] *)
Definition new (g : LogProcessor W) : M W ptr :=
  fun s => (Done (List.length (heap s)),
            mkSt (heap s ++ [g]) (trace s) (world s)).

Fixpoint update_nth {A : Type} (n : nat) (f : A -> A) (l : list A) : list A :=
  match l, n with
  | [], _ => []
  | x :: l', O => f x :: l'
  | x :: l', S n' => x :: update_nth n' f l'
  end.

(** Assignment to a field of the struct behind [p]. *)
Definition store (p : ptr) (f : LogProcessor W -> LogProcessor W) : M W unit :=
  fun s =>
    match nth_error (heap s) p with
    | Some _ => (Done tt, mkSt (update_nth p f (heap s)) (trace s) (world s))
    | None => (Panic NilDereference, s)
    end.

(** The receiver of a method call through an interface value. *)
Definition deref {A : Type} (i : option A) : M W A :=
  match i with
  | Some a => ret a
  | None => panic NilDereference
  end.

(** A call on a collaborator: recorded, then run on the collaborators'
    state. *)
Definition call {A : Type} (c : Call) (f : Impl W A) : M W A :=
  fun s =>
    let (o, w) := f (world s) in
    (o, mkSt (heap s) (trace s ++ [c]) w).

End Gate.

Arguments ret {W A} a.
Arguments bind {W A B} m k.
Arguments panic {W A} v.
Arguments load {W} p.
Arguments new {W} g.
Arguments store {W} p f.
Arguments deref {W A} i.
Arguments call {W A} c f.

Notation "x <- m ;; k" := (bind m (fun x => k))
  (at level 61, m at next level, right associativity).
Notation "m ;;; k" := (bind m (fun _ => k))
  (at level 61, right associativity).

Section Minsev.

Variable W : Type.

(** [noopProcessor] and its four methods. *)
Definition noopProcessor_OnEmit (_ : Context) (_ : log.Record_) : Impl W error :=
  fun w => (Done None, w).
Definition noopProcessor_Enabled (_ : Context) (_ : log.EnabledParameters)
  : Impl W bool :=
  fun w => (Done false, w).
Definition noopProcessor_Shutdown (_ : Context) : Impl W error :=
  fun w => (Done None, w).
Definition noopProcessor_ForceFlush (_ : Context) : Impl W error :=
  fun w => (Done None, w).

(** [var defaultProcessor = noopProcessor{}], as a [log.Processor] value. *)
Definition defaultProcessor : log.Processor W :=
  log.mkProcessor noopProcessor_OnEmit noopProcessor_Shutdown
    noopProcessor_ForceFlush (Some noopProcessor_Enabled).

(** Modelled from the spec: the constant [SeverityInfo] and its [Severity]
    method are declared in the package's severity.go, which is not among
    the sources.  The spec describes the default as a fixed provider
    returning the informational severity level. *)
Definition SeverityInfo : Severitier W :=
  mkSeveritier (fun w => (Done log.SeverityInfo, w)).

(** [func NewLogProcessor(downstream log.Processor, severity Severitier)],
    which returns a pointer to the new [LogProcessor]. *)
Definition NewLogProcessor (downstream : option (log.Processor W))
    (severity : option (Severitier W)) : M W ptr :=
  let downstream :=
    match downstream with
    | None => Some defaultProcessor
    | Some _ => downstream
    end in
  let severity :=
    match severity with
    | None => Some SeverityInfo
    | Some _ => severity
    end in
  p <- new (mkLogProcessor downstream None severity) ;;
  match log.assert_FilterProcessor downstream with
  | Some fp =>
      store p (fun g => mkLogProcessor (Processor g) (Some fp) (sev g))
  | None => ret tt
  end ;;;
  ret p.

(** [OnEmit(ctx context.Context, record *log.Record) error], with pointer
    receiver [p].  [record] is the record pointed to.  The left operand
    [record.Severity()] is evaluated first; it reads the record only. *)
Definition OnEmit (p : ptr) (ctx : Context) (record : log.Record_) : M W error :=
  let rsev := log.Record_Severity record in
  g <- load p ;;
  s <- deref (sev g) ;;
  min <- call CallSeverity (Severity s) ;;
  if rsev >=? min then
    g' <- load p ;;
    d <- deref (Processor g') ;;
    call (CallOnEmit ctx record) (log.OnEmit d ctx record)
  else ret None.

(** [Enabled(ctx context.Context, param log.EnabledParameters) bool], with
    pointer receiver [p]. *)
Definition Enabled (p : ptr) (ctx : Context) (param : log.EnabledParameters)
  : M W bool :=
  let sev0 := log.param_Severity param in
  g <- load p ;;
  match filter g with
  | Some _ =>
      g1 <- load p ;;
      s <- deref (sev g1) ;;
      min <- call CallSeverity (Severity s) ;;
      if sev0 >=? min then
        g2 <- load p ;;
        f <- deref (filter g2) ;;
        call (CallEnabled ctx param) (log.Enabled f ctx param)
      else ret false
  | None =>
      g1 <- load p ;;
      s <- deref (sev g1) ;;
      min <- call CallSeverity (Severity s) ;;
      ret (sev0 >=? min)
  end.

(** [Shutdown] and [ForceFlush] are promoted from the embedded
    [log.Processor]: [p.Shutdown(ctx)] is [p.Processor.Shutdown(ctx)]. *)
Definition Shutdown (p : ptr) (ctx : Context) : M W error :=
  g <- load p ;;
  d <- deref (Processor g) ;;
  call (CallShutdown ctx) (log.Shutdown d ctx).

Definition ForceFlush (p : ptr) (ctx : Context) : M W error :=
  g <- load p ;;
  d <- deref (Processor g) ;;
  call (CallForceFlush ctx) (log.ForceFlush d ctx).

End Minsev.


(** ** The processor seen through the interfaces it implements *)

(** The package asserts at compile time that a pointer to a [LogProcessor]
    is assignable to [log.Processor] and to [log.FilterProcessor]: it is
    itself a [log.Processor] value whose dynamic type has [Enabled].  Its
    methods act on the whole program state, which is the collaborators' state
    of whoever holds it. *)
Definition LogProcessor_Processor {W : Type} (p : ptr) : log.Processor (St W) :=
  log.mkProcessor (OnEmit (W := W) p) (Shutdown (W := W) p)
    (ForceFlush (W := W) p) (Some (Enabled (W := W) p)).

(** ** Programs over a processor *)

(** What a client of the package can do, one step at a time: call a method
    through a pointer, build another processor, or let the collaborators'
    state change under an outside writer. *)
Inductive Op (W : Type) : Type :=
| OpOnEmit (p : ptr) (ctx : Context) (record : log.Record_)
| OpEnabled (p : ptr) (ctx : Context) (param : log.EnabledParameters)
| OpShutdown (p : ptr) (ctx : Context)
| OpForceFlush (p : ptr) (ctx : Context)
| OpNew (downstream : option (log.Processor W)) (severity : option (Severitier W))
| OpOutside (f : W -> W).

Definition outside {W : Type} (f : W -> W) : M W unit :=
  fun s => (Done tt, mkSt (heap s) (trace s) (f (world s))).

Definition run_op {W : Type} (o : Op W) : M W unit :=
  match o with
  | OpOnEmit _ p ctx record => OnEmit p ctx record ;;; ret tt
  | OpEnabled _ p ctx param => Enabled p ctx param ;;; ret tt
  | OpShutdown _ p ctx => Shutdown p ctx ;;; ret tt
  | OpForceFlush _ p ctx => ForceFlush p ctx ;;; ret tt
  | OpNew downstream severity => NewLogProcessor downstream severity ;;; ret tt
  | OpOutside f => outside f
  end.

Fixpoint run_ops {W : Type} (l : list (Op W)) : M W unit :=
  match l with
  | [] => ret tt
  | o :: l' => run_op o ;;; run_ops l'
  end.

(** Number of [Severity] calls in a trace. *)
Fixpoint Severity_calls (t : list Call) : nat :=
  match t with
  | [] => O
  | CallSeverity :: t' => S (Severity_calls t')
  | _ :: t' => Severity_calls t'
  end.

(** Whether a trace holds a call of the downstream's [OnEmit] or [Enabled]. *)
Fixpoint forwarded (t : list Call) : bool :=
  match t with
  | [] => false
  | CallOnEmit _ _ :: _ => true
  | CallEnabled _ _ :: _ => true
  | _ :: t' => forwarded t'
  end.

(** The state a call on a collaborator leaves: same cells, one more trace
    entry, the collaborators' state the call produced. *)
Definition after {W : Type} (s : St W) (c : Call) (w : W) : St W :=
  mkSt (heap s) (trace s ++ [c]) w.

(** The calls a computation adds to the trace of the state it starts in. *)
Definition calls_of {W A : Type} (m : M W A) (s : St W) : list Call :=
  skipn (List.length (trace s)) (trace (snd (m s))).

(** A computation that leaves every [LogProcessor] struct as it found it. *)
Definition keeps_heap {W A : Type} (m : M W A) : Prop :=
  forall s : St W, heap (snd (m s)) = heap s.

(** The records a trace shows handed to the downstream's [OnEmit], oldest
    first. *)
Fixpoint emitted (t : list Call) : list log.Record_ :=
  match t with
  | [] => []
  | CallOnEmit _ r :: t' => r :: emitted t'
  | _ :: t' => emitted t'
  end.


(** The calls one [OnEmit] makes under minimum [m] on a processor that has
    a downstream and a provider. *)
Definition OnEmit_calls (m : log.Severity) (ctx : Context) (r : log.Record_)
  : list Call :=
  if log.severity r >=? m then [CallSeverity; CallOnEmit ctx r] else [CallSeverity].

(** ** Concrete collaborators *)

Module Fixture.

(** Collaborators' state: the value of a severity variable, the records a
    sink has taken, and whether the sink was shut down. *)
Record World : Type := mkWorld {
  level : log.Severity;
  received : list log.Record_;
  closed : bool
}.

(** Modelled from the spec: [SeverityVar], the dynamic provider of the
    package's severity.go (not among the sources), whose reported value an
    outside controller can change between calls. *)
Definition SeverityVar : Severitier World :=
  mkSeveritier (fun w => (Done (level w), w)).

Definition SeverityVar_Set (l : log.Severity) (w : World) : World :=
  mkWorld l (received w) (closed w).

(** A sink that keeps what it is given and refuses an empty body. *)
Definition sink_OnEmit (_ : Context) (r : log.Record_) : Impl World error :=
  fun w =>
    (Done (if String.eqb (log.body r) EmptyString then Some "empty body"%string else None),
     mkWorld (level w) (received w ++ [r]) (closed w)).

Definition sink_Shutdown (_ : Context) : Impl World error :=
  fun w => (Done None, mkWorld (level w) (received w) true).

Definition sink_ForceFlush (_ : Context) : Impl World error :=
  fun w =>
    (Done (if closed w then Some "shut down"%string else None), w).

Definition sink_Enabled (_ : Context) (param : log.EnabledParameters)
  : Impl World bool :=
  fun w => (Done (negb (String.eqb (log.param_EventName param) "muted")), w).

(** The sink without and with an [Enabled] method. *)
Definition plain_sink : log.Processor World :=
  log.mkProcessor sink_OnEmit sink_Shutdown sink_ForceFlush None.

Definition filter_sink : log.Processor World :=
  log.mkProcessor sink_OnEmit sink_Shutdown sink_ForceFlush (Some sink_Enabled).

Definition w0 : World := mkWorld 13 [] false.
Definition s0 : St World := mkSt [] [] w0.

Definition err_rec : log.Record_ := log.mkRecord 17 "disk full".
Definition dbg_rec : log.Record_ := log.mkRecord 5 "tick".
Definition err_param : log.EnabledParameters := log.mkEnabledParameters 17 "job".
Definition dbg_param : log.EnabledParameters := log.mkEnabledParameters 5 "job".
Definition muted_param : log.EnabledParameters := log.mkEnabledParameters 17 "muted".

(** The state after [NewLogProcessor] built a processor at address 0. *)
Definition built (d : option (log.Processor World)) (sv : option (Severitier World))
  : St World :=
  snd (NewLogProcessor d sv s0).

Definition info_rec : log.Record_ := log.mkRecord 10 "started".
Definition info_param : log.EnabledParameters := log.mkEnabledParameters 10 "job".

(** A second processor, with the default minimum, built around the one at
    address 0 of [built d sv]; the first one's program state is the state of
    the second one's collaborators. *)
Definition stacked (d : option (log.Processor World)) (sv : option (Severitier World))
  : St (St World) :=
  snd (NewLogProcessor (Some (LogProcessor_Processor 0%nat)) None
         (mkSt [] [] (built d sv))).

End Fixture.


(** * Proofs *)

(** ** Running the monad *)

Section Equations.

Variable W : Type.
Implicit Types (s : St W) (p : ptr) (g : LogProcessor W).

Lemma load_cell s p g :
  nth_error (heap s) p = Some g -> load p s = (Done g, s).
Proof. intros H. unfold load. now rewrite H. Qed.

Lemma call_eq (A : Type) (c : Call) (f : Impl W A) s :
  call c f s = (fst (f (world s)), after s c (snd (f (world s)))).
Proof. unfold call, after. now destruct (f (world s)). Qed.

Lemma bind_load (A : Type) s p g (k : LogProcessor W -> M W A) :
  nth_error (heap s) p = Some g -> (x <- load p ;; k x) s = k g s.
Proof. intros H. unfold bind. now rewrite load_cell with (g := g) by exact H. Qed.

Lemma bind_call (A B : Type) (c : Call) (f : Impl W A) (k : A -> M W B) s :
  (x <- call c f ;; k x) s =
  match f (world s) with
  | (Done a, w) => k a (after s c w)
  | (Panic v, w) => (Panic v, after s c w)
  end.
Proof. unfold bind, call, after. now destruct (f (world s)) as [[a|v] w]. Qed.

(** [OnEmit] on a processor whose provider is not nil. *)
Lemma OnEmit_eq s p g sv ctx r :
  nth_error (heap s) p = Some g ->
  sev g = Some sv ->
  OnEmit p ctx r s =
  match Severity sv (world s) with
  | (Done m, w1) =>
      if log.severity r >=? m then
        match Processor g with
        | Some d => call (CallOnEmit ctx r) (log.OnEmit d ctx r)
                      (after s CallSeverity w1)
        | None => (Panic NilDereference, after s CallSeverity w1)
        end
      else (Done None, after s CallSeverity w1)
  | (Panic v, w1) => (Panic v, after s CallSeverity w1)
  end.
Proof.
  intros Hp Hs. unfold OnEmit, log.Record_Severity.
  rewrite bind_load with (g := g) by exact Hp. rewrite Hs. cbn [deref].
  unfold bind at 1. cbn [ret]. rewrite bind_call.
  destruct (Severity sv (world s)) as [[m|v] w1]; [|reflexivity].
  destruct (log.severity r >=? m); [|reflexivity].
  rewrite bind_load with (g := g) by exact Hp.
  destruct (Processor g); reflexivity.
Qed.

(** [Enabled] on a processor whose provider is not nil. *)
Lemma Enabled_eq s p g sv ctx param :
  nth_error (heap s) p = Some g ->
  sev g = Some sv ->
  Enabled p ctx param s =
  match Severity sv (world s) with
  | (Done m, w1) =>
      match filter g with
      | Some f =>
          if log.param_Severity param >=? m then
            call (CallEnabled ctx param) (log.Enabled f ctx param)
              (after s CallSeverity w1)
          else (Done false, after s CallSeverity w1)
      | None => (Done (log.param_Severity param >=? m), after s CallSeverity w1)
      end
  | (Panic v, w1) => (Panic v, after s CallSeverity w1)
  end.
Proof.
  intros Hp Hs. unfold Enabled.
  rewrite bind_load with (g := g) by exact Hp.
  destruct (filter g) as [f|] eqn:Hf.
  - rewrite bind_load with (g := g) by exact Hp. rewrite Hs. cbn [deref].
    unfold bind at 1. cbn [ret]. rewrite bind_call.
    destruct (Severity sv (world s)) as [[m|v] w1]; [|reflexivity].
    destruct (log.param_Severity param >=? m); [|reflexivity].
    rewrite bind_load with (g := g) by exact Hp.
    rewrite Hf. reflexivity.
  - rewrite bind_load with (g := g) by exact Hp. rewrite Hs. cbn [deref].
    unfold bind at 1. cbn [ret]. rewrite bind_call.
    destruct (Severity sv (world s)) as [[m|v] w1]; reflexivity.
Qed.

(** The promoted methods on a processor whose downstream is not nil. *)
Lemma Shutdown_eq s p g d ctx :
  nth_error (heap s) p = Some g ->
  Processor g = Some d ->
  Shutdown p ctx s = call (CallShutdown ctx) (log.Shutdown d ctx) s.
Proof.
  intros Hp Hd. unfold Shutdown. rewrite bind_load with (g := g) by exact Hp. rewrite Hd. reflexivity.
Qed.

Lemma ForceFlush_eq s p g d ctx :
  nth_error (heap s) p = Some g ->
  Processor g = Some d ->
  ForceFlush p ctx s = call (CallForceFlush ctx) (log.ForceFlush d ctx) s.
Proof.
  intros Hp Hd. unfold ForceFlush. rewrite bind_load with (g := g) by exact Hp. rewrite Hd. reflexivity.
Qed.

End Equations.

(** ** Construction *)

Section Construction.

Variable W : Type.

Lemma nth_error_snoc (A : Type) (l : list A) (x : A) :
  nth_error (l ++ [x]) (List.length l) = Some x.
Proof. induction l as [|y l IH]; [reflexivity | exact IH]. Qed.

Lemma update_nth_snoc (A : Type) (f : A -> A) (l : list A) (x : A) :
  update_nth (List.length l) f (l ++ [x]) = l ++ [f x].
Proof.
  induction l as [|y l IH]; [reflexivity|].
  cbn. now rewrite IH.
Qed.

Lemma nth_error_before (A : Type) (l l' : list A) (n : nat) (x : A) :
  nth_error l n = Some x -> nth_error (l ++ l') n = Some x.
Proof.
  revert n. induction l as [|y l IH]; intros [|n] H; try discriminate.
  - exact H.
  - cbn in *. now apply IH.
Qed.

(** What [NewLogProcessor] does: one new cell at the end of the heap, holding
    the arguments with nil replaced, and the filter view of the downstream
    when it has one. *)
Lemma NewLogProcessor_eq (downstream : option (log.Processor W))
    (severity : option (Severitier W)) (s : St W) :
  let d := match downstream with Some d => d | None => defaultProcessor W end in
  let sv := match severity with Some x => x | None => SeverityInfo W end in
  NewLogProcessor downstream severity s =
  (Done (List.length (heap s)),
   mkSt (heap s ++ [mkLogProcessor (Some d) (log.assert_FilterProcessor (Some d))
                      (Some sv)])
     (trace s) (world s)).
Proof.
  intros d sv. subst d sv. unfold NewLogProcessor.
  destruct downstream as [d|], severity as [sv|];
    unfold bind, new; cbn [heap trace world];
    match goal with
    | |- context [log.assert_FilterProcessor ?x] =>
        destruct (log.assert_FilterProcessor x) as [fp|]
    end;
    unfold store; cbn [heap trace world ret];
    rewrite ?nth_error_snoc, ?update_nth_snoc; reflexivity.
Qed.

End Construction.

(** Go's [a >= b] on severities. *)
Lemma geb_true (a b : Z) : b <= a -> (a >=? b) = true.
Proof. intros H. rewrite Z.geb_leb. now apply Z.leb_le. Qed.

Lemma geb_false (a b : Z) : a < b -> (a >=? b) = false.
Proof. intros H. rewrite Z.geb_leb. now apply Z.leb_gt. Qed.

(** ** The claims *)

(** C1.  [OnEmit] asks the provider for the current minimum.  A record whose
    severity is at least the minimum is handed, with the same context, to the
    downstream's [OnEmit], and what that call yields is what [OnEmit] yields;
    a record below the minimum is dropped: the provider's call is the only
    one made, and the result is the nil error. *)
Theorem C1_OnEmit_forwards_or_drops (W : Type) (s : St W) (p : ptr)
    (g : LogProcessor W) (d : log.Processor W) (sv : Severitier W)
    (ctx : Context) (r : log.Record_) (m : log.Severity) (w1 : W) :
  nth_error (heap s) p = Some g ->
  Processor g = Some d ->
  sev g = Some sv ->
  Severity sv (world s) = (Done m, w1) ->
  (m <= log.severity r ->
   OnEmit p ctx r s =
   (fst (log.OnEmit d ctx r w1),
    after (after s CallSeverity w1) (CallOnEmit ctx r)
      (snd (log.OnEmit d ctx r w1))))
  /\ (log.severity r < m ->
      OnEmit p ctx r s = (Done None, after s CallSeverity w1)).
Proof.
  intros Hp Hd Hs Hm.
  rewrite OnEmit_eq with (g := g) (sv := sv) by assumption.
  rewrite Hm, Hd. split; intros Hcmp.
  - rewrite (geb_true Hcmp). apply call_eq.
  - now rewrite (geb_false Hcmp).
Qed.

Lemma C1_witness :
  OnEmit 0%nat Background Fixture.err_rec
    (Fixture.built (Some Fixture.plain_sink) (Some Fixture.SeverityVar)) =
  (Done None,
   mkSt [mkLogProcessor (Some Fixture.plain_sink) None (Some Fixture.SeverityVar)]
     [CallSeverity; CallOnEmit Background Fixture.err_rec]
     (Fixture.mkWorld 13 [Fixture.err_rec] false))
  /\ OnEmit 0%nat Background Fixture.dbg_rec
       (Fixture.built (Some Fixture.plain_sink) (Some Fixture.SeverityVar)) =
     (Done None,
      mkSt [mkLogProcessor (Some Fixture.plain_sink) None (Some Fixture.SeverityVar)]
        [CallSeverity] Fixture.w0).
Proof.
  split.
  - apply (proj1 (@C1_OnEmit_forwards_or_drops Fixture.World
             (Fixture.built (Some Fixture.plain_sink) (Some Fixture.SeverityVar))
             0%nat _ Fixture.plain_sink Fixture.SeverityVar Background
             Fixture.err_rec 13 Fixture.w0
             eq_refl eq_refl eq_refl eq_refl)).
    vm_compute. discriminate.
  - apply (proj2 (@C1_OnEmit_forwards_or_drops Fixture.World
             (Fixture.built (Some Fixture.plain_sink) (Some Fixture.SeverityVar))
             0%nat _ Fixture.plain_sink Fixture.SeverityVar Background
             Fixture.dbg_rec 13 Fixture.w0
             eq_refl eq_refl eq_refl eq_refl)).
    reflexivity.
Defined.

(** C2.  On a processor whose downstream has an [Enabled] method, which the
    processor holds as its filter, [Enabled] answers true exactly when the
    queried severity is at least the provider's current minimum and the
    downstream's [Enabled] answers true for the same context and parameters.
    When the severity is below the minimum the answer is false and the
    downstream's [Enabled] is not called. *)
Theorem C2_Enabled_with_filter (W : Type) (s : St W) (p : ptr)
    (g : LogProcessor W) (d : log.Processor W)
    (e : Context -> log.EnabledParameters -> Impl W bool) (sv : Severitier W)
    (ctx : Context) (param : log.EnabledParameters) (m : log.Severity) (w1 : W) :
  nth_error (heap s) p = Some g ->
  Processor g = Some d ->
  log.dyn_Enabled d = Some e ->
  filter g = log.assert_FilterProcessor (Processor g) ->
  sev g = Some sv ->
  Severity sv (world s) = (Done m, w1) ->
  (fst (Enabled p ctx param s) = Done true <->
   m <= log.param_Severity param /\ fst (e ctx param w1) = Done true)
  /\ (m <= log.param_Severity param ->
      Enabled p ctx param s =
      (fst (e ctx param w1),
       after (after s CallSeverity w1) (CallEnabled ctx param)
         (snd (e ctx param w1))))
  /\ (log.param_Severity param < m ->
      Enabled p ctx param s = (Done false, after s CallSeverity w1)).
Proof.
  intros Hp Hd He Hf Hs Hm.
  rewrite Hd in Hf. cbn in Hf. rewrite He in Hf.
  rewrite Enabled_eq with (g := g) (sv := sv) by assumption.
  rewrite Hm, Hf. cbn [log.Enabled].
  destruct (Z_lt_le_dec (log.param_Severity param) m) as [Hlt|Hle].
  - rewrite (geb_false Hlt). split; [split|split].
    + discriminate.
    + intros [Hle _]. lia.
    + intros Hle. lia.
    + reflexivity.
  - rewrite (geb_true Hle), call_eq. cbn [world after fst]. split; [split|split].
    + intros H. now split.
    + now intros [_ H].
    + reflexivity.
    + intros Hlt. lia.
Qed.

Lemma C2_witness :
  Enabled 0%nat Background Fixture.err_param
    (Fixture.built (Some Fixture.filter_sink) (Some Fixture.SeverityVar)) =
  (Done true,
   mkSt (heap (Fixture.built (Some Fixture.filter_sink) (Some Fixture.SeverityVar)))
     [CallSeverity; CallEnabled Background Fixture.err_param] Fixture.w0)
  /\ Enabled 0%nat Background Fixture.muted_param
       (Fixture.built (Some Fixture.filter_sink) (Some Fixture.SeverityVar)) =
     (Done false,
      mkSt (heap (Fixture.built (Some Fixture.filter_sink) (Some Fixture.SeverityVar)))
        [CallSeverity; CallEnabled Background Fixture.muted_param] Fixture.w0)
  /\ Enabled 0%nat Background Fixture.dbg_param
       (Fixture.built (Some Fixture.filter_sink) (Some Fixture.SeverityVar)) =
     (Done false,
      mkSt (heap (Fixture.built (Some Fixture.filter_sink) (Some Fixture.SeverityVar)))
        [CallSeverity] Fixture.w0).
Proof.
  pose (C := fun param =>
    @C2_Enabled_with_filter Fixture.World
      (Fixture.built (Some Fixture.filter_sink) (Some Fixture.SeverityVar))
      0%nat _ Fixture.filter_sink Fixture.sink_Enabled Fixture.SeverityVar
      Background param 13 Fixture.w0
      eq_refl eq_refl eq_refl eq_refl eq_refl eq_refl).
  split; [|split].
  - apply (proj1 (proj2 (C Fixture.err_param))). vm_compute. discriminate.
  - apply (proj1 (proj2 (C Fixture.muted_param))). vm_compute. discriminate.
  - apply (proj2 (proj2 (C Fixture.dbg_param))). reflexivity.
Defined.

(** C3.  On a processor whose downstream has no [Enabled] method, [Enabled]
    answers true exactly when the queried severity is at least the provider's
    current minimum, and calls nothing but the provider.  On every processor,
    with or without a filter, a severity below the minimum is answered
    false. *)
Theorem C3_Enabled_without_filter (W : Type) (s : St W) (p : ptr)
    (g : LogProcessor W) (sv : Severitier W)
    (ctx : Context) (param : log.EnabledParameters) (m : log.Severity) (w1 : W) :
  nth_error (heap s) p = Some g ->
  sev g = Some sv ->
  Severity sv (world s) = (Done m, w1) ->
  (forall d : log.Processor W,
      Processor g = Some d ->
      log.dyn_Enabled d = None ->
      filter g = log.assert_FilterProcessor (Processor g) ->
      Enabled p ctx param s =
      (Done (log.param_Severity param >=? m), after s CallSeverity w1)
      /\ (fst (Enabled p ctx param s) = Done true <->
          m <= log.param_Severity param))
  /\ (log.param_Severity param < m ->
      fst (Enabled p ctx param s) = Done false).
Proof.
  intros Hp Hs Hm.
  rewrite Enabled_eq with (g := g) (sv := sv) by assumption.
  rewrite Hm. split.
  - intros d Hd He Hf. rewrite Hd in Hf. cbn in Hf. rewrite He in Hf.
    rewrite Hf. split; [reflexivity|]. cbn [fst].
    destruct (Z_lt_le_dec (log.param_Severity param) m) as [Hlt|Hle].
    + rewrite (geb_false Hlt). split; [discriminate | lia].
    + rewrite (geb_true Hle). split; [intros _; exact Hle | reflexivity].
  - intros Hlt. rewrite (geb_false Hlt). now destruct (filter g).
Qed.

Lemma C3_witness :
  Enabled 0%nat Background Fixture.err_param
    (Fixture.built (Some Fixture.plain_sink) (Some Fixture.SeverityVar)) =
  (Done true,
   mkSt (heap (Fixture.built (Some Fixture.plain_sink) (Some Fixture.SeverityVar)))
     [CallSeverity] Fixture.w0)
  /\ fst (Enabled 0%nat Background Fixture.dbg_param
            (Fixture.built (Some Fixture.filter_sink) (Some Fixture.SeverityVar))) =
     Done false.
Proof.
  split.
  - apply (proj1 (@C3_Enabled_without_filter Fixture.World
             (Fixture.built (Some Fixture.plain_sink) (Some Fixture.SeverityVar))
             0%nat _ Fixture.SeverityVar Background Fixture.err_param 13 Fixture.w0
             eq_refl eq_refl eq_refl)
           Fixture.plain_sink eq_refl eq_refl eq_refl).
  - apply (proj2 (@C3_Enabled_without_filter Fixture.World
             (Fixture.built (Some Fixture.filter_sink) (Some Fixture.SeverityVar))
             0%nat _ Fixture.SeverityVar Background Fixture.dbg_param 13 Fixture.w0
             eq_refl eq_refl eq_refl)).
    reflexivity.
Defined.

(** C4.  [NewLogProcessor] returns a pointer for every pair of arguments and
    in every state, touching neither the trace nor the collaborators.  The
    struct behind the pointer holds the downstream given, or [defaultProcessor]
    for nil, and the provider given, or [SeverityInfo] for nil, which always
    reports [log.SeverityInfo]; neither field is nil.  As long as that struct
    sits behind the pointer, a panic out of any of the four methods is one a
    collaborator raised: the processor itself never calls through nil. *)
Theorem C4_NewLogProcessor_never_fails (W : Type)
    (downstream : option (log.Processor W)) (severity : option (Severitier W))
    (s0 : St W) :
  let d := match downstream with Some d => d | None => defaultProcessor W end in
  let sv := match severity with Some x => x | None => SeverityInfo W end in
  exists (p : ptr) (g : LogProcessor W),
    NewLogProcessor downstream severity s0 =
    (Done p, mkSt (heap s0 ++ [g]) (trace s0) (world s0))
    /\ nth_error (heap s0 ++ [g]) p = Some g
    /\ Processor g = Some d
    /\ sev g = Some sv
    /\ (forall w, Severity (SeverityInfo W) w = (Done log.SeverityInfo, w))
    /\ forall s : St W,
        nth_error (heap s) p = Some g ->
        forall (ctx : Context) (r : log.Record_) (param : log.EnabledParameters)
               (v : PanicValue),
          (fst (OnEmit p ctx r s) = Panic v ->
           (exists w, fst (Severity sv w) = Panic v)
           \/ (exists w, fst (log.OnEmit d ctx r w) = Panic v))
          /\ (fst (Enabled p ctx param s) = Panic v ->
              (exists w, fst (Severity sv w) = Panic v)
              \/ (exists e w, log.dyn_Enabled d = Some e
                              /\ fst (e ctx param w) = Panic v))
          /\ (fst (Shutdown p ctx s) = Panic v ->
              exists w, fst (log.Shutdown d ctx w) = Panic v)
          /\ (fst (ForceFlush p ctx s) = Panic v ->
              exists w, fst (log.ForceFlush d ctx w) = Panic v).
Proof.
  intros d sv.
  exists (List.length (heap s0)).
  exists (mkLogProcessor (Some d) (log.assert_FilterProcessor (Some d)) (Some sv)).
  split; [apply NewLogProcessor_eq|].
  split; [apply nth_error_snoc|].
  split; [reflexivity|]. split; [reflexivity|]. split; [reflexivity|].
  intros s Hp ctx r param v.
  split; [|split; [|split]].
  - rewrite OnEmit_eq with (1 := Hp) (sv := sv) by reflexivity. cbn [Processor].
    destruct (Severity sv (world s)) as [[m|v'] w1] eqn:Hm.
    + destruct (log.severity r >=? m).
      * rewrite call_eq. cbn [fst world after]. intros H. right. exists w1. exact H.
      * discriminate.
    + cbn [fst]. intros H. injection H as ->. left. exists (world s). now rewrite Hm.
  - rewrite Enabled_eq with (1 := Hp) (sv := sv) by reflexivity. cbn [filter].
    destruct (Severity sv (world s)) as [[m|v'] w1] eqn:Hm.
    + unfold log.assert_FilterProcessor.
      destruct (log.dyn_Enabled d) as [e|] eqn:He; [|discriminate].
      destruct (log.param_Severity param >=? m); [|discriminate].
      rewrite call_eq. cbn [fst world after log.Enabled]. intros H.
      right. exists e, w1. split; [reflexivity | exact H].
    + cbn [fst]. intros H. injection H as ->. left. exists (world s). now rewrite Hm.
  - rewrite Shutdown_eq with (1 := Hp) (d := d) by reflexivity.
    rewrite call_eq. cbn [fst]. intros H. exists (world s). exact H.
  - rewrite ForceFlush_eq with (1 := Hp) (d := d) by reflexivity.
    rewrite call_eq. cbn [fst]. intros H. exists (world s). exact H.
Qed.

Lemma C4_witness :
  exists (p : ptr) (g : LogProcessor Fixture.World),
    NewLogProcessor None None Fixture.s0 = (Done p, mkSt [g] [] Fixture.w0)
    /\ Processor g = Some (defaultProcessor Fixture.World)
    /\ sev g = Some (SeverityInfo Fixture.World).
Proof.
  destruct (C4_NewLogProcessor_never_fails (W := Fixture.World) None None Fixture.s0)
    as (p & g & Hnew & _ & Hd & Hsv & _).
  exists p, g. repeat split; assumption.
Defined.

(** C5.  A processor built with a nil downstream wraps the no-op processor.
    Whatever the record's severity, [OnEmit] yields the nil error and leaves
    the collaborators' state as the provider's call left it; whatever the
    queried severity, [Enabled] answers false. *)
Theorem C5_nil_downstream_is_noop (W : Type) (severity : option (Severitier W))
    (s0 s : St W) (p : ptr) (ctx : Context) (r : log.Record_)
    (param : log.EnabledParameters) (m : log.Severity) (w1 : W) :
  fst (NewLogProcessor None severity s0) = Done p ->
  nth_error (heap s) p =
  nth_error (heap (snd (NewLogProcessor None severity s0))) p ->
  Severity (match severity with Some x => x | None => SeverityInfo W end)
    (world s) = (Done m, w1) ->
  fst (OnEmit p ctx r s) = Done None
  /\ world (snd (OnEmit p ctx r s)) = w1
  /\ heap (snd (OnEmit p ctx r s)) = heap s
  /\ fst (Enabled p ctx param s) = Done false
  /\ world (snd (Enabled p ctx param s)) = w1.
Proof.
  intros Hnew Hcell Hm.
  pose proof (NewLogProcessor_eq None severity s0) as E. cbn zeta in E.
  rewrite E in Hnew, Hcell. cbn [fst snd heap] in Hnew, Hcell.
  injection Hnew as <-. rewrite nth_error_snoc in Hcell.
  rewrite OnEmit_eq with (1 := Hcell) (sv := match severity with
                                             | Some x => x
                                             | None => SeverityInfo W
                                             end) by reflexivity.
  rewrite Enabled_eq with (1 := Hcell) (sv := match severity with
                                              | Some x => x
                                              | None => SeverityInfo W
                                              end) by reflexivity.
  rewrite Hm. cbn [Processor filter log.assert_FilterProcessor defaultProcessor
                   log.dyn_Enabled].
  rewrite !call_eq.
  destruct (log.severity r >=? m), (log.param_Severity param >=? m);
    repeat split.
Qed.

Lemma C5_witness :
  fst (OnEmit 0%nat Background Fixture.err_rec
         (Fixture.built None (Some Fixture.SeverityVar))) = Done None
  /\ world (snd (OnEmit 0%nat Background Fixture.err_rec
                   (Fixture.built None (Some Fixture.SeverityVar)))) = Fixture.w0
  /\ heap (snd (OnEmit 0%nat Background Fixture.err_rec
                  (Fixture.built None (Some Fixture.SeverityVar)))) =
     heap (Fixture.built None (Some Fixture.SeverityVar))
  /\ fst (Enabled 0%nat Background Fixture.err_param
            (Fixture.built None (Some Fixture.SeverityVar))) = Done false
  /\ world (snd (Enabled 0%nat Background Fixture.err_param
                   (Fixture.built None (Some Fixture.SeverityVar)))) = Fixture.w0.
Proof.
  exact (@C5_nil_downstream_is_noop Fixture.World (Some Fixture.SeverityVar)
           Fixture.s0 (Fixture.built None (Some Fixture.SeverityVar)) 0%nat
           Background Fixture.err_rec Fixture.err_param 13 Fixture.w0
           eq_refl eq_refl eq_refl).
Defined.

(** ** Frame lemmas: the heap and the trace *)

Section Frames.

Variable W : Type.

Lemma keeps_heap_ret (A : Type) (a : A) : keeps_heap (ret (W := W) a).
Proof. intros s. reflexivity. Qed.

Lemma keeps_heap_panic (A : Type) (v : PanicValue) :
  keeps_heap (panic (W := W) (A := A) v).
Proof. intros s. reflexivity. Qed.

Lemma keeps_heap_load (p : ptr) : keeps_heap (load (W := W) p).
Proof. intros s. unfold load. now destruct (nth_error (heap s) p). Qed.

Lemma keeps_heap_deref (A : Type) (i : option A) : keeps_heap (deref (W := W) i).
Proof. intros s. now destruct i. Qed.

Lemma keeps_heap_call (A : Type) (c : Call) (f : Impl W A) :
  keeps_heap (call c f).
Proof. intros s. now rewrite call_eq. Qed.

Lemma keeps_heap_outside (f : W -> W) : keeps_heap (outside f).
Proof. intros s. reflexivity. Qed.

Lemma keeps_heap_bind (A B : Type) (m : M W A) (k : A -> M W B) :
  keeps_heap m -> (forall a, keeps_heap (k a)) -> keeps_heap (x <- m ;; k x).
Proof.
  intros Hm Hk s. unfold bind.
  specialize (Hm s). destruct (m s) as [[a|v] s']; cbn [snd] in *.
  - now rewrite Hk.
  - exact Hm.
Qed.

End Frames.

Create HintDb heap_frame.
#[export] Hint Resolve keeps_heap_ret keeps_heap_panic keeps_heap_load
  keeps_heap_deref keeps_heap_call keeps_heap_outside : heap_frame.

Ltac heap_frame :=
  repeat first
    [ solve [auto with heap_frame]
    | apply keeps_heap_bind; [|intros ?]
    | match goal with
      | |- keeps_heap (if ?b then _ else _) => destruct b
      | |- keeps_heap (match ?x with Some _ => _ | None => _ end) => destruct x
      end ].

Section Methods.

Variable W : Type.

Lemma OnEmit_keeps_heap (p : ptr) (ctx : Context) (r : log.Record_) :
  keeps_heap (OnEmit (W := W) p ctx r).
Proof. unfold OnEmit. heap_frame. Qed.

Lemma Enabled_keeps_heap (p : ptr) (ctx : Context) (param : log.EnabledParameters) :
  keeps_heap (Enabled (W := W) p ctx param).
Proof. unfold Enabled. heap_frame. Qed.

Lemma Shutdown_keeps_heap (p : ptr) (ctx : Context) :
  keeps_heap (Shutdown (W := W) p ctx).
Proof. unfold Shutdown. heap_frame. Qed.

Lemma ForceFlush_keeps_heap (p : ptr) (ctx : Context) :
  keeps_heap (ForceFlush (W := W) p ctx).
Proof. unfold ForceFlush. heap_frame. Qed.

(** A step of a client program leaves every allocated struct in place. *)
Lemma run_op_cell (o : Op W) (s : St W) (p : ptr) (g : LogProcessor W) :
  nth_error (heap s) p = Some g ->
  nth_error (heap (snd (run_op o s))) p = Some g.
Proof.
  intros Hp.
  assert (forall (A : Type) (m : M W A),
             keeps_heap m ->
             nth_error (heap (snd ((m ;;; ret tt) s))) p = Some g) as K.
  { intros A m Hm.
    rewrite (@keeps_heap_bind W A unit m (fun _ => ret tt) Hm
               (fun _ => @keeps_heap_ret W unit tt)).
    exact Hp. }
  destruct o as [q ctx r|q ctx param|q ctx|q ctx|d sv|f]; cbn [run_op].
  - apply K, OnEmit_keeps_heap.
  - apply K, Enabled_keeps_heap.
  - apply K, Shutdown_keeps_heap.
  - apply K, ForceFlush_keeps_heap.
  - unfold bind. pose proof (NewLogProcessor_eq d sv s) as E. cbn zeta in E.
    rewrite E. cbn [ret snd heap]. now apply nth_error_before.
  - exact Hp.
Qed.

Lemma run_ops_cell (l : list (Op W)) (s : St W) (p : ptr) (g : LogProcessor W) :
  nth_error (heap s) p = Some g ->
  nth_error (heap (snd (run_ops l s))) p = Some g.
Proof.
  revert s. induction l as [|o l IH]; intros s Hp; [exact Hp|].
  cbn [run_ops]. unfold bind.
  pose proof (@run_op_cell o s p g Hp) as Ho.
  destruct (run_op o s) as [[[]|v] s']; cbn [snd] in *.
  - now apply IH.
  - exact Ho.
Qed.

Lemma skipn_past (A : Type) (l d : list A) : skipn (List.length l) (l ++ d) = d.
Proof. induction l as [|x l IH]; [reflexivity | exact IH]. Qed.

(** The calls of a computation, read off the trace it leaves. *)
Lemma calls_of_eq (A : Type) (m : M W A) (s : St W) (d : list Call) :
  trace (snd (m s)) = trace s ++ d -> calls_of m s = d.
Proof. intros H. unfold calls_of. rewrite H. apply skipn_past. Qed.

Lemma calls_of_OnEmit (s : St W) (p : ptr) (g : LogProcessor W)
    (d : log.Processor W) (sv : Severitier W) (ctx : Context) (r : log.Record_)
    (m : log.Severity) (w1 : W) :
  nth_error (heap s) p = Some g ->
  Processor g = Some d ->
  sev g = Some sv ->
  Severity sv (world s) = (Done m, w1) ->
  calls_of (OnEmit p ctx r) s =
  if log.severity r >=? m then [CallSeverity; CallOnEmit ctx r] else [CallSeverity].
Proof.
  intros Hp Hd Hs Hm. apply calls_of_eq.
  rewrite OnEmit_eq with (1 := Hp) (2 := Hs). rewrite Hm, Hd.
  destruct (log.severity r >=? m).
  - rewrite call_eq. cbn [snd trace after]. now rewrite <- app_assoc.
  - reflexivity.
Qed.

End Methods.

(** C6.  The minimum is read from the provider on every call and kept
    nowhere.  Let any step [o] of a client run in [s] (a first [OnEmit] or
    [Enabled] call, say), and let an outside writer then change the
    collaborators' state by [f].  The struct behind [p] is the one that was
    there before, and the next [OnEmit] or [Enabled] decides by the minimum
    the provider reports now: [OnEmit] hands the record on exactly when its
    severity is at least that minimum, and [Enabled] answers the severity
    test against it, combined with the filter's answer when there is a
    filter.  So a record that the minimum reported in [s] let through and the
    new one does not (or the other way round) gets the opposite treatment on
    the very next call. *)
Theorem C6_minimum_read_on_every_call (W : Type) (s : St W) (p : ptr)
    (g : LogProcessor W) (d : log.Processor W) (sv : Severitier W)
    (o : Op W) (f : W -> W)
    (ctx : Context) (r : log.Record_) (param : log.EnabledParameters)
    (m : log.Severity) (w : W) :
  nth_error (heap s) p = Some g ->
  Processor g = Some d ->
  sev g = Some sv ->
  Severity sv (world (snd (run_ops [o; OpOutside f] s))) = (Done m, w) ->
  let s' := snd (run_ops [o; OpOutside f] s) in
  nth_error (heap s') p = Some g
  /\ forwarded (calls_of (OnEmit p ctx r) s') = (log.severity r >=? m)
  /\ fst (OnEmit p ctx r s') =
     (if log.severity r >=? m then fst (log.OnEmit d ctx r w) else Done None)
  /\ (forall b : bool,
         match filter g with
         | Some fl => fst (log.Enabled fl ctx param w) = Done b
         | None => b = true
         end ->
         fst (Enabled p ctx param s') =
         Done ((log.param_Severity param >=? m) && b))
  /\ (forall (m1 : log.Severity) (w1 : W),
         Severity sv (world s) = (Done m1, w1) ->
         forwarded (calls_of (OnEmit p ctx r) s) = (log.severity r >=? m1)
         /\ (m1 <= log.severity r < m \/ m <= log.severity r < m1 ->
             forwarded (calls_of (OnEmit p ctx r) s) <>
             forwarded (calls_of (OnEmit p ctx r) s'))).
Proof.
  intros Hp Hd Hs Hm s'.
  assert (nth_error (heap s') p = Some g) as Hp' by now apply run_ops_cell.
  assert (forall (t : St W) (n : log.Severity) (u : W),
             nth_error (heap t) p = Some g ->
             Severity sv (world t) = (Done n, u) ->
             forwarded (calls_of (OnEmit p ctx r) t) = (log.severity r >=? n))
    as Hfw.
  { intros t n u Ht Hn.
    rewrite calls_of_OnEmit with (1 := Ht) (2 := Hd) (3 := Hs) (4 := Hn).
    now destruct (log.severity r >=? n). }
  split; [exact Hp'|].
  split; [now apply Hfw with (u := w)|].
  split; [|split].
  - rewrite OnEmit_eq with (1 := Hp') (2 := Hs). fold s' in Hm. rewrite Hm, Hd.
    destruct (log.severity r >=? m); [|reflexivity].
    now rewrite call_eq.
  - intros b Hb.
    rewrite Enabled_eq with (1 := Hp') (2 := Hs). fold s' in Hm. rewrite Hm.
    destruct (filter g) as [fl|].
    + destruct (log.param_Severity param >=? m); [|reflexivity].
      rewrite call_eq. cbn [fst world after andb]. exact Hb.
    + subst b. cbn [fst]. now rewrite andb_true_r.
  - intros m1 w1 Hm1. split; [now apply Hfw with (u := w1)|].
    intros Hcross.
    rewrite (Hfw s m1 w1 Hp Hm1), (Hfw s' m w Hp' Hm).
    destruct Hcross as [[H1 H2]|[H1 H2]].
    + rewrite (geb_true H1), (geb_false H2). discriminate.
    + rewrite (geb_false H2), (geb_true H1). discriminate.
Qed.

Lemma C6_witness :
  forwarded (calls_of (OnEmit 0%nat Background Fixture.err_rec)
               (Fixture.built (Some Fixture.plain_sink) (Some Fixture.SeverityVar))) =
  true
  /\ forwarded
       (calls_of (OnEmit 0%nat Background Fixture.err_rec)
          (snd (run_ops [OpOnEmit Fixture.World 0%nat Background Fixture.err_rec;
                         OpOutside (Fixture.SeverityVar_Set 21)]
                  (Fixture.built (Some Fixture.plain_sink)
                     (Some Fixture.SeverityVar))))) = false.
Proof.
  pose proof (@C6_minimum_read_on_every_call Fixture.World
                (Fixture.built (Some Fixture.plain_sink) (Some Fixture.SeverityVar))
                0%nat _ Fixture.plain_sink Fixture.SeverityVar
                (OpOnEmit Fixture.World 0%nat Background Fixture.err_rec)
                (Fixture.SeverityVar_Set 21)
                Background Fixture.err_rec Fixture.err_param 21
                (Fixture.mkWorld 21 [Fixture.err_rec] false)
                eq_refl eq_refl eq_refl eq_refl) as C.
  cbn zeta in C. destruct C as (_ & Hnext & _ & _ & Hfirst).
  split.
  - exact (proj1 (Hfirst 13 Fixture.w0 eq_refl)).
  - exact Hnext.
Defined.

(** C7.  [Shutdown] and [ForceFlush] of a processor are its downstream's
    [Shutdown] and [ForceFlush] on the same context: same result, same effect
    on the collaborators, that one call recorded, no struct touched. *)
Theorem C7_lifecycle_passes_through (W : Type) (s : St W) (p : ptr)
    (g : LogProcessor W) (d : log.Processor W) (ctx : Context) :
  nth_error (heap s) p = Some g ->
  Processor g = Some d ->
  Shutdown p ctx s =
  (fst (log.Shutdown d ctx (world s)),
   mkSt (heap s) (trace s ++ [CallShutdown ctx])
     (snd (log.Shutdown d ctx (world s))))
  /\ ForceFlush p ctx s =
     (fst (log.ForceFlush d ctx (world s)),
      mkSt (heap s) (trace s ++ [CallForceFlush ctx])
        (snd (log.ForceFlush d ctx (world s)))).
Proof.
  intros Hp Hd. split.
  - rewrite Shutdown_eq with (1 := Hp) (2 := Hd). apply call_eq.
  - rewrite ForceFlush_eq with (1 := Hp) (2 := Hd). apply call_eq.
Qed.

Lemma C7_witness :
  Shutdown 0%nat Background
    (Fixture.built (Some Fixture.plain_sink) (Some Fixture.SeverityVar)) =
  (Done None,
   mkSt [mkLogProcessor (Some Fixture.plain_sink) None (Some Fixture.SeverityVar)]
     [CallShutdown Background] (Fixture.mkWorld 13 [] true))
  /\ ForceFlush 0%nat Background
       (Fixture.built (Some Fixture.plain_sink) (Some Fixture.SeverityVar)) =
     (Done None,
      mkSt [mkLogProcessor (Some Fixture.plain_sink) None (Some Fixture.SeverityVar)]
        [CallForceFlush Background] Fixture.w0).
Proof.
  exact (@C7_lifecycle_passes_through Fixture.World
           (Fixture.built (Some Fixture.plain_sink) (Some Fixture.SeverityVar))
           0%nat _ Fixture.plain_sink Background eq_refl eq_refl).
Defined.

(** C8.  None of the four methods writes to a [LogProcessor] struct: each
    leaves the heap as it found it, in every state and on every path.  Hence
    a struct, once allocated, holds the same downstream, filter and provider
    throughout any client program, whatever the program calls, builds or lets
    the outside change. *)
Theorem C8_no_mutable_state (W : Type) :
  (forall p ctx r, keeps_heap (OnEmit (W := W) p ctx r))
  /\ (forall p ctx param, keeps_heap (Enabled (W := W) p ctx param))
  /\ (forall p ctx, keeps_heap (Shutdown (W := W) p ctx))
  /\ (forall p ctx, keeps_heap (ForceFlush (W := W) p ctx))
  /\ (forall (l : list (Op W)) (s : St W) (p : ptr) (g : LogProcessor W),
         nth_error (heap s) p = Some g ->
         nth_error (heap (snd (run_ops l s))) p = Some g).
Proof.
  repeat split.
  - apply OnEmit_keeps_heap.
  - apply Enabled_keeps_heap.
  - apply Shutdown_keeps_heap.
  - apply ForceFlush_keeps_heap.
  - intros l s p g. apply run_ops_cell.
Qed.

Lemma C8_witness :
  nth_error
    (heap (snd (run_ops
                  [OpOnEmit Fixture.World 0%nat Background Fixture.err_rec;
                   OpEnabled Fixture.World 0%nat Background Fixture.muted_param;
                   OpOutside (Fixture.SeverityVar_Set 21);
                   OpNew None None;
                   OpForceFlush Fixture.World 0%nat Background;
                   OpShutdown Fixture.World 0%nat Background]
                  (Fixture.built (Some Fixture.filter_sink)
                     (Some Fixture.SeverityVar))))) 0 =
  Some (mkLogProcessor (Some Fixture.filter_sink)
          (Some (log.mkFilterProcessor Fixture.sink_Enabled))
          (Some Fixture.SeverityVar)).
Proof.
  apply (proj2 (proj2 (proj2 (proj2 (C8_no_mutable_state Fixture.World))))).
  reflexivity.
Defined.

Lemma calls_counted (W A : Type) (m : M W A) (s : St W) (d : list Call) :
  trace (snd (m s)) = trace s ++ d ->
  Severity_calls d = 1%nat ->
  trace (snd (m s)) = trace s ++ calls_of m s
  /\ Severity_calls (calls_of m s) = 1%nat.
Proof.
  intros Ht Hc. rewrite calls_of_eq with (1 := Ht). now split.
Qed.

(** C9.  One [OnEmit] call, and one [Enabled] call, on a processor with a
    provider appends to the trace calls of which exactly one is the
    provider's [Severity]: the minimum is read once and that one value
    decides the call. *)
Theorem C9_Severity_called_once (W : Type) (s : St W) (p : ptr)
    (g : LogProcessor W) (sv : Severitier W)
    (ctx : Context) (r : log.Record_) (param : log.EnabledParameters) :
  nth_error (heap s) p = Some g ->
  sev g = Some sv ->
  (trace (snd (OnEmit p ctx r s)) = trace s ++ calls_of (OnEmit p ctx r) s
   /\ Severity_calls (calls_of (OnEmit p ctx r) s) = 1%nat)
  /\ (trace (snd (Enabled p ctx param s)) =
      trace s ++ calls_of (Enabled p ctx param) s
      /\ Severity_calls (calls_of (Enabled p ctx param) s) = 1%nat).
Proof.
  intros Hp Hs. split.
  - pose proof (@OnEmit_eq W s p g sv ctx r Hp Hs) as E.
    destruct (Severity sv (world s)) as [[m|v] w1].
    + destruct (log.severity r >=? m).
      * destruct (Processor g) as [d|].
        -- rewrite call_eq in E.
           apply calls_counted with (d := [CallSeverity; CallOnEmit ctx r]);
             [|reflexivity].
           rewrite E. cbn [snd trace after]. now rewrite <- app_assoc.
        -- apply calls_counted with (d := [CallSeverity]); [|reflexivity].
           now rewrite E.
      * apply calls_counted with (d := [CallSeverity]); [|reflexivity].
        now rewrite E.
    + apply calls_counted with (d := [CallSeverity]); [|reflexivity].
      now rewrite E.
  - pose proof (@Enabled_eq W s p g sv ctx param Hp Hs) as E.
    destruct (Severity sv (world s)) as [[m|v] w1].
    + destruct (filter g) as [fl|].
      * destruct (log.param_Severity param >=? m).
        -- rewrite call_eq in E.
           apply calls_counted with (d := [CallSeverity; CallEnabled ctx param]);
             [|reflexivity].
           rewrite E. cbn [snd trace after]. now rewrite <- app_assoc.
        -- apply calls_counted with (d := [CallSeverity]); [|reflexivity].
           now rewrite E.
      * apply calls_counted with (d := [CallSeverity]); [|reflexivity].
        now rewrite E.
    + apply calls_counted with (d := [CallSeverity]); [|reflexivity].
      now rewrite E.
Qed.

Lemma C9_witness :
  (trace (snd (OnEmit 0%nat Background Fixture.err_rec
                 (Fixture.built (Some Fixture.filter_sink)
                    (Some Fixture.SeverityVar)))) =
   [] ++ [CallSeverity; CallOnEmit Background Fixture.err_rec]
   /\ Severity_calls [CallSeverity; CallOnEmit Background Fixture.err_rec] = 1%nat)
  /\ (trace (snd (Enabled 0%nat Background Fixture.err_param
                    (Fixture.built (Some Fixture.filter_sink)
                       (Some Fixture.SeverityVar)))) =
      [] ++ [CallSeverity; CallEnabled Background Fixture.err_param]
      /\ Severity_calls [CallSeverity; CallEnabled Background Fixture.err_param] =
         1%nat).
Proof.
  exact (@C9_Severity_called_once Fixture.World
           (Fixture.built (Some Fixture.filter_sink) (Some Fixture.SeverityVar))
           0%nat _ Fixture.SeverityVar Background Fixture.err_rec
           Fixture.err_param eq_refl eq_refl).
Defined.

(** C10.  A pointer to a [LogProcessor] is a [log.Processor] value that
    passes the assertion to [log.FilterProcessor], its [Enabled] being the
    method above; so a second [NewLogProcessor] given the first as downstream
    takes it as its filter.  This holds whatever the first wraps.  When the
    downstream of a built processor has no [Enabled] method, the processor's
    [Enabled] answers the severity test and nothing else. *)
Theorem C10_LogProcessor_is_FilterProcessor (W : Type)
    (downstream : option (log.Processor W)) (severity : option (Severitier W))
    (s0 : St W) :
  let p := List.length (heap s0) in
  let sv := match severity with Some x => x | None => SeverityInfo W end in
  fst (NewLogProcessor downstream severity s0) = Done p
  /\ log.assert_FilterProcessor (Some (LogProcessor_Processor (W := W) p)) =
     Some (log.mkFilterProcessor (Enabled (W := W) p))
  /\ (forall (outer : option (Severitier (St W))) (t0 : St (St W)),
         exists g' : LogProcessor (St W),
           nth_error
             (heap (snd (NewLogProcessor (Some (LogProcessor_Processor p))
                           outer t0)))
             (List.length (heap t0)) = Some g'
           /\ filter g' = Some (log.mkFilterProcessor (Enabled (W := W) p)))
  /\ (forall d : log.Processor W,
         downstream = Some d ->
         log.dyn_Enabled d = None ->
         forall (s : St W) (ctx : Context) (param : log.EnabledParameters)
                (m : log.Severity) (w1 : W),
           nth_error (heap s) p =
           nth_error (heap (snd (NewLogProcessor downstream severity s0))) p ->
           Severity sv (world s) = (Done m, w1) ->
           Enabled p ctx param s =
           (Done (log.param_Severity param >=? m), after s CallSeverity w1)).
Proof.
  intros p sv. split; [|split; [|split]].
  - pose proof (NewLogProcessor_eq downstream severity s0) as E. cbn zeta in E.
    now rewrite E.
  - reflexivity.
  - intros outer t0.
    pose proof (NewLogProcessor_eq (Some (LogProcessor_Processor (W := W) p))
                  outer t0) as E.
    cbn zeta in E. rewrite E. cbn [snd heap]. rewrite nth_error_snoc.
    eexists. split; reflexivity.
  - intros d -> He s ctx param m w1 Hcell Hm.
    pose proof (NewLogProcessor_eq (Some d) severity s0) as E. cbn zeta in E.
    rewrite E in Hcell. cbn [snd heap] in Hcell. subst p.
    rewrite nth_error_snoc in Hcell.
    rewrite Enabled_eq with (1 := Hcell) (sv := sv) by reflexivity.
    rewrite Hm. cbn [filter log.assert_FilterProcessor]. now rewrite He.
Qed.

Lemma C10_witness :
  Enabled 0%nat Background Fixture.err_param
    (Fixture.built (Some Fixture.plain_sink) None) =
  (Done true,
   mkSt [mkLogProcessor (Some Fixture.plain_sink) None
           (Some (SeverityInfo Fixture.World))]
     [CallSeverity] Fixture.w0).
Proof.
  exact (proj2 (proj2 (proj2
           (@C10_LogProcessor_is_FilterProcessor Fixture.World
              (Some Fixture.plain_sink) None Fixture.s0)))
           Fixture.plain_sink eq_refl eq_refl
           (Fixture.built (Some Fixture.plain_sink) None)
           Background Fixture.err_param 9 Fixture.w0 eq_refl eq_refl).
Defined.

(** * Further properties of the package *)

(** ** A batch of records under a fixed minimum *)

Section Batch.

Variable W : Type.
Variables (p : ptr) (g : LogProcessor W) (d : log.Processor W) (sv : Severitier W).
Variables (ctx : Context) (m : log.Severity).

Hypothesis Hd : Processor g = Some d.
Hypothesis Hs : sev g = Some sv.
Hypothesis Hfixed : forall w, Severity sv w = (Done m, w).
Hypothesis Hsafe : forall r w v, fst (log.OnEmit d ctx r w) <> Panic v.

Lemma OnEmit_fixed_step (r : log.Record_) (s : St W) :
  nth_error (heap s) p = Some g ->
  exists (e : error) (s1 : St W),
    OnEmit p ctx r s = (Done e, s1)
    /\ heap s1 = heap s
    /\ trace s1 = trace s ++ OnEmit_calls m ctx r.
Proof.
  intros Hp. rewrite OnEmit_eq with (1 := Hp) (2 := Hs).
  rewrite Hfixed, Hd. unfold OnEmit_calls.
  destruct (log.severity r >=? m).
  - rewrite call_eq. cbn [world after].
    pose proof (Hsafe r (world s)) as Hr.
    destruct (log.OnEmit d ctx r (world s)) as [[e|v] w']; cbn [fst snd] in *.
    + exists e. eexists. split; [reflexivity|]. cbn [heap trace after].
      split; [reflexivity|]. now rewrite <- app_assoc.
    + now contradiction (Hr v).
  - exists None. eexists. split; [reflexivity|]. now split.
Qed.

Lemma run_batch (rs : list log.Record_) (s : St W) :
  nth_error (heap s) p = Some g ->
  exists s' : St W,
    run_ops (map (OpOnEmit W p ctx) rs) s = (Done tt, s')
    /\ heap s' = heap s
    /\ trace s' = trace s ++ flat_map (OnEmit_calls m ctx) rs.
Proof.
  revert s. induction rs as [|r rs IH]; intros s Hp.
  - exists s. cbn. now rewrite app_nil_r.
  - destruct (@OnEmit_fixed_step r s Hp) as (e & s1 & E1 & Hh1 & Ht1).
    assert (nth_error (heap s1) p = Some g) as Hp1 by now rewrite Hh1.
    destruct (IH s1 Hp1) as (s' & E' & Hh' & Ht').
    exists s'. split; [|split].
    + cbn [map run_ops run_op]. unfold bind at 1. unfold bind at 1.
      rewrite E1. cbn [ret]. exact E'.
    + now rewrite Hh', Hh1.
    + rewrite Ht', Ht1. cbn [flat_map]. now rewrite app_assoc.
Qed.

Lemma emitted_steps (rs : list log.Record_) :
  emitted (flat_map (OnEmit_calls m ctx) rs) =
  List.filter (fun r => log.severity r >=? m) rs.
Proof.
  induction rs as [|r rs IH]; [reflexivity|].
  cbn [flat_map List.filter]. unfold OnEmit_calls at 1.
  destruct (log.severity r >=? m); cbn; now rewrite IH.
Qed.

Lemma Severity_calls_steps (rs : list log.Record_) :
  Severity_calls (flat_map (OnEmit_calls m ctx) rs) = List.length rs.
Proof.
  induction rs as [|r rs IH]; [reflexivity|].
  cbn [flat_map]. unfold OnEmit_calls at 1.
  destruct (log.severity r >=? m); cbn; now rewrite IH.
Qed.

(** Emitting a list of records one after the other through a processor whose
    provider always reports [m], into a downstream that does not panic, runs
    to the end; the downstream is handed exactly the records of severity at
    least [m], in the order they were emitted, and the provider is asked once
    per record. *)
Theorem batch_forwards_the_filtered_sublist (rs : list log.Record_) (s : St W) :
  nth_error (heap s) p = Some g ->
  fst (run_ops (map (OpOnEmit W p ctx) rs) s) = Done tt
  /\ emitted (calls_of (run_ops (map (OpOnEmit W p ctx) rs)) s) =
     List.filter (fun r => log.severity r >=? m) rs
  /\ Severity_calls (calls_of (run_ops (map (OpOnEmit W p ctx) rs)) s) =
     List.length rs.
Proof.
  intros Hp. destruct (@run_batch rs s Hp) as (s' & E & _ & Ht).
  assert (calls_of (run_ops (map (OpOnEmit W p ctx) rs)) s = flat_map (OnEmit_calls m ctx) rs)
    as Hc by (apply calls_of_eq; now rewrite E).
  rewrite Hc, E. split; [reflexivity|].
  split; [apply emitted_steps | apply Severity_calls_steps].
Qed.

End Batch.

Lemma batch_forwards_the_filtered_sublist_witness :
  emitted
    (calls_of
       (run_ops (map (OpOnEmit Fixture.World 0%nat Background)
                   [Fixture.err_rec; Fixture.dbg_rec; Fixture.info_rec]))
       (Fixture.built (Some Fixture.plain_sink) None)) =
  [Fixture.err_rec; Fixture.info_rec].
Proof.
  refine (proj1 (proj2
    (@batch_forwards_the_filtered_sublist Fixture.World 0%nat
       (mkLogProcessor (Some Fixture.plain_sink) None
          (Some (SeverityInfo Fixture.World)))
       Fixture.plain_sink (SeverityInfo Fixture.World) Background 9
       eq_refl eq_refl (fun w => eq_refl) _
       [Fixture.err_rec; Fixture.dbg_rec; Fixture.info_rec]
       (Fixture.built (Some Fixture.plain_sink) None) eq_refl))).
  intros r w v. cbn. discriminate.
Defined.

(** ** A processor wrapped in a processor *)

Lemma geb_max (a x y : Z) : (a >=? Z.max x y) = (a >=? x) && (a >=? y).
Proof.
  rewrite !Z.geb_leb.
  destruct (Z.leb_spec x a), (Z.leb_spec y a), (Z.leb_spec (Z.max x y) a);
    cbn; try reflexivity; lia.
Qed.

(** When the downstream of a processor is itself a processor, a record goes
    through to the innermost downstream exactly when its severity is at least
    both minima, the inner one read after the outer provider's call; the
    result is then the innermost [OnEmit]'s, and nil otherwise.  The outer
    processor makes the calls it makes on any downstream. *)
Theorem stacked_OnEmit_needs_both_minima (W : Type) (S : St (St W)) (p : ptr)
    (go : LogProcessor (St W)) (sv_o : Severitier (St W)) (m_o : log.Severity)
    (t1 : St W) (q : ptr) (gi : LogProcessor W) (d : log.Processor W)
    (sv_i : Severitier W) (m_i : log.Severity) (w2 : W)
    (ctx : Context) (r : log.Record_) :
  nth_error (heap S) p = Some go ->
  Processor go = Some (LogProcessor_Processor q) ->
  sev go = Some sv_o ->
  Severity sv_o (world S) = (Done m_o, t1) ->
  nth_error (heap t1) q = Some gi ->
  Processor gi = Some d ->
  sev gi = Some sv_i ->
  Severity sv_i (world t1) = (Done m_i, w2) ->
  fst (OnEmit p ctx r S) =
  (if log.severity r >=? Z.max m_o m_i then fst (log.OnEmit d ctx r w2)
   else Done None)
  /\ emitted (skipn (List.length (trace t1))
                (trace (world (snd (OnEmit p ctx r S))))) =
     (if log.severity r >=? Z.max m_o m_i then [r] else [])
  /\ calls_of (OnEmit p ctx r) S = OnEmit_calls m_o ctx r.
Proof.
  intros Hp Hdo Hso Hmo Hq Hdi Hsi Hmi.
  split; [|split];
    [| |now apply calls_of_OnEmit with (g := go) (d := LogProcessor_Processor q)
                                      (sv := sv_o) (w1 := t1)].
  - rewrite geb_max, OnEmit_eq with (1 := Hp) (2 := Hso). rewrite Hmo, Hdo.
    destruct (log.severity r >=? m_o); [|reflexivity].
    rewrite call_eq. cbn [fst world after log.OnEmit LogProcessor_Processor].
    rewrite OnEmit_eq with (1 := Hq) (2 := Hsi). rewrite Hmi, Hdi.
    destruct (log.severity r >=? m_i); [|reflexivity].
    now rewrite call_eq.
  - rewrite geb_max, OnEmit_eq with (1 := Hp) (2 := Hso). rewrite Hmo, Hdo.
    destruct (log.severity r >=? m_o).
    + rewrite call_eq. cbn [snd world after log.OnEmit LogProcessor_Processor].
      rewrite OnEmit_eq with (1 := Hq) (2 := Hsi). rewrite Hmi, Hdi.
      destruct (log.severity r >=? m_i).
      * rewrite call_eq. cbn [snd trace after andb]. rewrite <- app_assoc.
        now rewrite skipn_past.
      * cbn [snd trace after andb]. now rewrite skipn_past.
    + cbn [snd world after andb].
      replace (trace t1) with (trace t1 ++ []) at 2 by apply app_nil_r.
      now rewrite skipn_past.
Qed.

Lemma stacked_OnEmit_needs_both_minima_witness :
  (fst (OnEmit 0%nat Background Fixture.info_rec
          (Fixture.stacked (Some Fixture.plain_sink) (Some Fixture.SeverityVar))) =
   Done None
   /\ emitted
        (skipn 0
           (trace (world (snd (OnEmit 0%nat Background Fixture.info_rec
                                 (Fixture.stacked (Some Fixture.plain_sink)
                                    (Some Fixture.SeverityVar))))))) = []
   /\ calls_of (OnEmit 0%nat Background Fixture.info_rec)
        (Fixture.stacked (Some Fixture.plain_sink) (Some Fixture.SeverityVar)) =
      [CallSeverity; CallOnEmit Background Fixture.info_rec])
  /\ emitted
       (skipn 0
          (trace (world (snd (OnEmit 0%nat Background Fixture.err_rec
                                (Fixture.stacked (Some Fixture.plain_sink)
                                   (Some Fixture.SeverityVar))))))) =
     [Fixture.err_rec].
Proof.
  pose (C := fun r =>
    @stacked_OnEmit_needs_both_minima Fixture.World
      (Fixture.stacked (Some Fixture.plain_sink) (Some Fixture.SeverityVar))
      0%nat _ (SeverityInfo (St Fixture.World)) 9
      (Fixture.built (Some Fixture.plain_sink) (Some Fixture.SeverityVar))
      0%nat _ Fixture.plain_sink Fixture.SeverityVar 13 Fixture.w0
      Background r
      eq_refl eq_refl eq_refl eq_refl eq_refl eq_refl eq_refl eq_refl).
  split.
  - exact (C Fixture.info_rec).
  - exact (proj1 (proj2 (C Fixture.err_rec))).
Defined.

(** [Enabled] through two processors, the inner one held by the outer as its
    filter: the answer is true exactly when the queried severity is at least
    both minima and the innermost filter, if there is one, answers true. *)
Theorem stacked_Enabled_needs_both_minima (W : Type) (S : St (St W)) (p : ptr)
    (go : LogProcessor (St W)) (sv_o : Severitier (St W)) (m_o : log.Severity)
    (t1 : St W) (q : ptr) (gi : LogProcessor W)
    (sv_i : Severitier W) (m_i : log.Severity) (w2 : W)
    (ctx : Context) (param : log.EnabledParameters) (b : bool) :
  nth_error (heap S) p = Some go ->
  filter go = Some (log.mkFilterProcessor (Enabled (W := W) q)) ->
  sev go = Some sv_o ->
  Severity sv_o (world S) = (Done m_o, t1) ->
  nth_error (heap t1) q = Some gi ->
  sev gi = Some sv_i ->
  Severity sv_i (world t1) = (Done m_i, w2) ->
  match filter gi with
  | Some fl => fst (log.Enabled fl ctx param w2) = Done b
  | None => b = true
  end ->
  fst (Enabled p ctx param S) =
  Done ((log.param_Severity param >=? Z.max m_o m_i) && b).
Proof.
  intros Hp Hfo Hso Hmo Hq Hsi Hmi Hb.
  rewrite geb_max, Enabled_eq with (1 := Hp) (2 := Hso). rewrite Hmo, Hfo.
  destruct (log.param_Severity param >=? m_o); [|reflexivity].
  rewrite call_eq. cbn [fst world after log.Enabled].
  rewrite Enabled_eq with (1 := Hq) (2 := Hsi). rewrite Hmi.
  destruct (filter gi) as [fl|].
  - destruct (log.param_Severity param >=? m_i); [|reflexivity].
    rewrite call_eq. cbn [fst world after andb]. exact Hb.
  - subst b. cbn [fst andb]. now rewrite andb_true_r.
Qed.

Lemma stacked_Enabled_needs_both_minima_witness :
  fst (Enabled 0%nat Background Fixture.info_param
         (Fixture.stacked (Some Fixture.filter_sink) (Some Fixture.SeverityVar))) =
  Done false
  /\ fst (Enabled 0%nat Background Fixture.err_param
            (Fixture.stacked (Some Fixture.filter_sink) (Some Fixture.SeverityVar))) =
     Done true.
Proof.
  split.
  - exact (@stacked_Enabled_needs_both_minima Fixture.World
             (Fixture.stacked (Some Fixture.filter_sink) (Some Fixture.SeverityVar))
             0%nat _ (SeverityInfo (St Fixture.World)) 9
             (Fixture.built (Some Fixture.filter_sink) (Some Fixture.SeverityVar))
             0%nat _ Fixture.SeverityVar 13 Fixture.w0
             Background Fixture.info_param true
             eq_refl eq_refl eq_refl eq_refl eq_refl eq_refl eq_refl eq_refl).
  - exact (@stacked_Enabled_needs_both_minima Fixture.World
             (Fixture.stacked (Some Fixture.filter_sink) (Some Fixture.SeverityVar))
             0%nat _ (SeverityInfo (St Fixture.World)) 9
             (Fixture.built (Some Fixture.filter_sink) (Some Fixture.SeverityVar))
             0%nat _ Fixture.SeverityVar 13 Fixture.w0
             Background Fixture.err_param true
             eq_refl eq_refl eq_refl eq_refl eq_refl eq_refl eq_refl eq_refl).
Defined.

(** ** [Enabled] against [OnEmit] *)

(** If [Enabled] answers true for a severity, then [OnEmit] in the same state
    hands a record of that severity to the downstream: a caller that asks
    first never has an enabled record dropped by the severity test. *)
Theorem Enabled_true_then_OnEmit_forwards (W : Type) (s : St W) (p : ptr)
    (g : LogProcessor W) (d : log.Processor W) (sv : Severitier W)
    (ctx ctx' : Context) (param : log.EnabledParameters) (r : log.Record_) :
  nth_error (heap s) p = Some g ->
  Processor g = Some d ->
  sev g = Some sv ->
  fst (Enabled p ctx param s) = Done true ->
  log.severity r = log.param_Severity param ->
  calls_of (OnEmit p ctx' r) s = [CallSeverity; CallOnEmit ctx' r].
Proof.
  intros Hp Hd Hs He Hr.
  rewrite Enabled_eq with (1 := Hp) (2 := Hs) in He.
  destruct (Severity sv (world s)) as [[m|v] w1] eqn:Hm; [|discriminate].
  rewrite calls_of_OnEmit with (1 := Hp) (2 := Hd) (3 := Hs) (4 := Hm).
  rewrite Hr.
  destruct (log.param_Severity param >=? m); [reflexivity|].
  destruct (filter g); discriminate.
Qed.

Lemma Enabled_true_then_OnEmit_forwards_witness :
  calls_of (OnEmit 0%nat Background Fixture.err_rec)
    (Fixture.built (Some Fixture.filter_sink) (Some Fixture.SeverityVar)) =
  [CallSeverity; CallOnEmit Background Fixture.err_rec].
Proof.
  exact (@Enabled_true_then_OnEmit_forwards Fixture.World
           (Fixture.built (Some Fixture.filter_sink) (Some Fixture.SeverityVar))
           0%nat _ Fixture.filter_sink Fixture.SeverityVar
           Background Background Fixture.err_param Fixture.err_rec
           eq_refl eq_refl eq_refl eq_refl eq_refl).
Defined.

(** In one state, a record at least as severe as one that [OnEmit] hands to
    the downstream is handed to the downstream as well. *)
Theorem OnEmit_forwarding_is_monotone (W : Type) (s : St W) (p : ptr)
    (g : LogProcessor W) (d : log.Processor W) (sv : Severitier W)
    (ctx : Context) (r1 r2 : log.Record_) :
  nth_error (heap s) p = Some g ->
  Processor g = Some d ->
  sev g = Some sv ->
  log.severity r1 <= log.severity r2 ->
  forwarded (calls_of (OnEmit p ctx r1) s) = true ->
  calls_of (OnEmit p ctx r2) s = [CallSeverity; CallOnEmit ctx r2].
Proof.
  intros Hp Hd Hs Hle H1.
  destruct (Severity sv (world s)) as [[m|v] w1] eqn:Hm.
  - rewrite calls_of_OnEmit with (1 := Hp) (2 := Hd) (3 := Hs) (4 := Hm) in H1.
    rewrite calls_of_OnEmit with (1 := Hp) (2 := Hd) (3 := Hs) (4 := Hm).
    destruct (Z_lt_le_dec (log.severity r1) m) as [Hlt|Hge].
    + rewrite (geb_false Hlt) in H1. discriminate.
    + rewrite geb_true by lia. reflexivity.
  - rewrite calls_of_eq with (d := [CallSeverity]) in H1; [discriminate|].
    rewrite OnEmit_eq with (1 := Hp) (2 := Hs). now rewrite Hm.
Qed.

Lemma OnEmit_forwarding_is_monotone_witness :
  calls_of (OnEmit 0%nat Background Fixture.err_rec)
    (Fixture.built (Some Fixture.plain_sink) None) =
  [CallSeverity; CallOnEmit Background Fixture.err_rec].
Proof.
  apply (@OnEmit_forwarding_is_monotone Fixture.World
           (Fixture.built (Some Fixture.plain_sink) None)
           0%nat _ Fixture.plain_sink (SeverityInfo Fixture.World)
           Background Fixture.info_rec Fixture.err_rec
           eq_refl eq_refl eq_refl).
  - vm_compute. discriminate.
  - reflexivity.
Defined.

(** ** The structs a program can hold *)




(** ** Structs and pointers that [NewLogProcessor] did not make *)

(** Through a pointer that points at no struct, nil among them, each of the
    four methods panics on its first field read: no collaborator is called
    and nothing changes. *)
Theorem methods_panic_on_nil_receiver (W : Type) (s : St W) (p : ptr)
    (ctx : Context) (r : log.Record_) (param : log.EnabledParameters) :
  nth_error (heap s) p = None ->
  OnEmit p ctx r s = (Panic NilDereference, s)
  /\ Enabled p ctx param s = (Panic NilDereference, s)
  /\ Shutdown p ctx s = (Panic NilDereference, s)
  /\ ForceFlush p ctx s = (Panic NilDereference, s).
Proof.
  intros Hp.
  unfold OnEmit, Enabled, Shutdown, ForceFlush, bind, load.
  rewrite Hp. repeat split.
Qed.

Lemma methods_panic_on_nil_receiver_witness :
  OnEmit 0%nat Background Fixture.err_rec Fixture.s0 =
  (Panic NilDereference, Fixture.s0)
  /\ Enabled 0%nat Background Fixture.err_param Fixture.s0 =
     (Panic NilDereference, Fixture.s0)
  /\ Shutdown 0%nat Background Fixture.s0 = (Panic NilDereference, Fixture.s0)
  /\ ForceFlush 0%nat Background Fixture.s0 = (Panic NilDereference, Fixture.s0).
Proof.
  exact (@methods_panic_on_nil_receiver Fixture.World Fixture.s0 0%nat
           Background Fixture.err_rec Fixture.err_param eq_refl).
Defined.

(** A struct whose provider is nil, as a literal that sets the exported
    downstream only leaves it: [OnEmit] and [Enabled] panic before they call
    anything, for every severity and whatever the downstream is, while
    [Shutdown] and [ForceFlush] still reach a downstream that is there. *)
Theorem nil_provider_panics_before_any_call (W : Type) (s : St W) (p : ptr)
    (g : LogProcessor W)
    (ctx : Context) (r : log.Record_) (param : log.EnabledParameters) :
  nth_error (heap s) p = Some g ->
  sev g = None ->
  OnEmit p ctx r s = (Panic NilDereference, s)
  /\ Enabled p ctx param s = (Panic NilDereference, s)
  /\ (forall d : log.Processor W,
         Processor g = Some d ->
         Shutdown p ctx s = call (CallShutdown ctx) (log.Shutdown d ctx) s
         /\ ForceFlush p ctx s =
            call (CallForceFlush ctx) (log.ForceFlush d ctx) s).
Proof.
  intros Hp Hs. split; [|split].
  - unfold OnEmit. rewrite bind_load with (g := g) by exact Hp.
    now rewrite Hs.
  - unfold Enabled. rewrite bind_load with (g := g) by exact Hp.
    destruct (filter g); rewrite bind_load with (g := g) by exact Hp;
      now rewrite Hs.
  - intros d Hd. split.
    + now apply Shutdown_eq with (g := g).
    + now apply ForceFlush_eq with (g := g).
Qed.

Lemma nil_provider_panics_before_any_call_witness :
  OnEmit 0%nat Background Fixture.dbg_rec
    (mkSt [mkLogProcessor (Some Fixture.plain_sink) None None] [] Fixture.w0) =
  (Panic NilDereference,
   mkSt [mkLogProcessor (Some Fixture.plain_sink) None None] [] Fixture.w0)
  /\ Enabled 0%nat Background Fixture.err_param
       (mkSt [mkLogProcessor (Some Fixture.plain_sink) None None] [] Fixture.w0) =
     (Panic NilDereference,
      mkSt [mkLogProcessor (Some Fixture.plain_sink) None None] [] Fixture.w0).
Proof.
  destruct (@nil_provider_panics_before_any_call Fixture.World
              (mkSt [mkLogProcessor (Some Fixture.plain_sink) None None] []
                 Fixture.w0)
              0%nat _ Background Fixture.dbg_rec Fixture.err_param
              eq_refl eq_refl) as (H1 & _ & _).
  destruct (@nil_provider_panics_before_any_call Fixture.World
              (mkSt [mkLogProcessor (Some Fixture.plain_sink) None None] []
                 Fixture.w0)
              0%nat _ Background Fixture.dbg_rec Fixture.err_param
              eq_refl eq_refl) as (_ & H2 & _).
  split; [exact H1 | exact H2].
Defined.

(** A struct whose downstream is nil but whose provider is not: [OnEmit]
    asks the provider first, and panics only when the record is to be handed
    on; a record below the minimum is dropped with the nil error as on any
    processor.  [Shutdown] and [ForceFlush] panic at once. *)
Theorem nil_downstream_field_panics_on_use (W : Type) (s : St W) (p : ptr)
    (g : LogProcessor W) (sv : Severitier W)
    (ctx : Context) (r : log.Record_) (m : log.Severity) (w1 : W) :
  nth_error (heap s) p = Some g ->
  Processor g = None ->
  sev g = Some sv ->
  Severity sv (world s) = (Done m, w1) ->
  (m <= log.severity r ->
   OnEmit p ctx r s = (Panic NilDereference, after s CallSeverity w1))
  /\ (log.severity r < m ->
      OnEmit p ctx r s = (Done None, after s CallSeverity w1))
  /\ Shutdown p ctx s = (Panic NilDereference, s)
  /\ ForceFlush p ctx s = (Panic NilDereference, s).
Proof.
  intros Hp Hd Hs Hm.
  rewrite OnEmit_eq with (1 := Hp) (2 := Hs). rewrite Hm, Hd.
  split; [|split; [|split]].
  - intros Hle. now rewrite (geb_true Hle).
  - intros Hlt. now rewrite (geb_false Hlt).
  - unfold Shutdown. rewrite bind_load with (g := g) by exact Hp.
    now rewrite Hd.
  - unfold ForceFlush. rewrite bind_load with (g := g) by exact Hp.
    now rewrite Hd.
Qed.

Lemma nil_downstream_field_panics_on_use_witness :
  OnEmit 0%nat Background Fixture.dbg_rec
    (mkSt [mkLogProcessor None None (Some Fixture.SeverityVar)] [] Fixture.w0) =
  (Done None,
   mkSt [mkLogProcessor None None (Some Fixture.SeverityVar)] [CallSeverity]
     Fixture.w0)
  /\ OnEmit 0%nat Background Fixture.err_rec
       (mkSt [mkLogProcessor None None (Some Fixture.SeverityVar)] [] Fixture.w0) =
     (Panic NilDereference,
      mkSt [mkLogProcessor None None (Some Fixture.SeverityVar)] [CallSeverity]
        Fixture.w0).
Proof.
  pose (C := fun r =>
    @nil_downstream_field_panics_on_use Fixture.World
      (mkSt [mkLogProcessor None None (Some Fixture.SeverityVar)] [] Fixture.w0)
      0%nat _ Fixture.SeverityVar Background r 13 Fixture.w0
      eq_refl eq_refl eq_refl eq_refl).
  split.
  - apply (proj1 (proj2 (C Fixture.dbg_rec))). reflexivity.
  - apply (proj1 (C Fixture.err_rec)). vm_compute. discriminate.
Defined.

(** ** The no-op processor's lifecycle *)

(** On a processor built with a nil downstream, [Shutdown] and [ForceFlush]
    yield the nil error and leave the collaborators' state alone. *)
Theorem nil_downstream_lifecycle_is_noop (W : Type)
    (severity : option (Severitier W)) (s0 s : St W) (p : ptr) (ctx : Context) :
  fst (NewLogProcessor None severity s0) = Done p ->
  nth_error (heap s) p =
  nth_error (heap (snd (NewLogProcessor None severity s0))) p ->
  Shutdown p ctx s = (Done None, after s (CallShutdown ctx) (world s))
  /\ ForceFlush p ctx s = (Done None, after s (CallForceFlush ctx) (world s)).
Proof.
  intros Hnew Hcell.
  pose proof (NewLogProcessor_eq None severity s0) as E. cbn zeta in E.
  rewrite E in Hnew, Hcell. cbn [fst snd heap] in Hnew, Hcell.
  injection Hnew as <-. rewrite nth_error_snoc in Hcell.
  split.
  - rewrite Shutdown_eq with (1 := Hcell) (d := defaultProcessor W)
      by reflexivity.
    now rewrite call_eq.
  - rewrite ForceFlush_eq with (1 := Hcell) (d := defaultProcessor W)
      by reflexivity.
    now rewrite call_eq.
Qed.

Lemma nil_downstream_lifecycle_is_noop_witness :
  Shutdown 0%nat Background (Fixture.built None None) =
  (Done None,
   after (Fixture.built None None) (CallShutdown Background) Fixture.w0)
  /\ ForceFlush 0%nat Background (Fixture.built None None) =
     (Done None,
      after (Fixture.built None None) (CallForceFlush Background) Fixture.w0).
Proof.
  exact (@nil_downstream_lifecycle_is_noop Fixture.World None Fixture.s0
           (Fixture.built None None) 0%nat Background eq_refl eq_refl).
Defined.
